(** * LibDS [Core/Protocol.h]: counters, read/generate wrappers, defaults

    A shallow embedding of the [Protocol] base class of LibDS.  The class
    keeps eight packet counters, wraps the encoders and decoders a protocol
    variant supplies through virtual methods, and records successful decodes
    in the [DS_Config] singleton. *)

From Stdlib Require Import ZArith List Bool String Lia.
From Stdlib Require Import Strings.Byte.
Import ListNotations.
Local Open Scope Z_scope.

(** ** The C++ [int]

    The counters are plain [int] members.  C++ leaves signed overflow
    without a meaning; on the two's-complement targets Qt runs on, [++]
    wraps from [INT_MAX] to [INT_MIN], and that is what [incr] writes out.
    Results about exact counts are stated for calls in which no counter
    steps over [INT_MAX] ([can_incr]). *)
Module CInt.

Definition INT_MAX : Z := 2147483647.
Definition INT_MIN : Z := -2147483648.

Definition wrap (z : Z) : Z := (z + 2147483648) mod 4294967296 - 2147483648.

(** [++x] *)
Definition incr (x : Z) : Z := wrap (x + 1).

Definition representable (x : Z) : Prop := INT_MIN <= x <= INT_MAX.

(** [++x] stays inside the language's defined behaviour. *)
Definition can_incr (x : Z) : bool := (INT_MIN <=? x) && (x <? INT_MAX).

End CInt.

(** ** Types of namespace [DS] *)
Module DS.

(** Modelled from the spec: [DS::SocketType], declared in [DriverStation.h],
    a header outside this development; the spec names the two socket types,
    UDP and TCP. *)
Inductive SocketType : Set := kSocketTypeUDP | kSocketTypeTCP.

(** Modelled from the spec: [DS::CommStatus], declared in [DriverStation.h];
    the spec gives the per-peer comms status as Working or Failing. *)
Inductive CommStatus : Set := kCommsWorking | kCommsFailing.

Definition CommStatus_eqb (a b : CommStatus) : bool :=
  match a, b with
  | kCommsWorking, kCommsWorking | kCommsFailing, kCommsFailing => true
  | _, _ => false
  end.

End DS.

Definition QByteArray := list byte.
Definition QString := string.

(** ** The Config collaborator *)

(** Modelled from the spec: class [DS_Config] ([Core/DS_Config.h], a header
    outside this development).  Of the singleton the wrappers touch only the
    per-peer comms status (written) and the robot's connection state
    (read). *)
Record DS_Config : Set := mkConfig {
  fmsCommStatus : DS.CommStatus;
  radioCommStatus : DS.CommStatus;
  robotCommStatus : DS.CommStatus
}.

(** Modelled from the spec: [DS_Config::updateFMSCommStatus] writes the
    comms status of the FMS. *)
Definition updateFMSCommStatus (st : DS.CommStatus) (c : DS_Config) : DS_Config :=
  {| fmsCommStatus := st;
     radioCommStatus := radioCommStatus c;
     robotCommStatus := robotCommStatus c |}.

(** Modelled from the spec: [DS_Config::updateRadioCommStatus] writes the
    comms status of the radio. *)
Definition updateRadioCommStatus (st : DS.CommStatus) (c : DS_Config) : DS_Config :=
  {| fmsCommStatus := fmsCommStatus c;
     radioCommStatus := st;
     robotCommStatus := robotCommStatus c |}.

(** Modelled from the spec: [DS_Config::updateRobotCommStatus] writes the
    comms status of the robot. *)
Definition updateRobotCommStatus (st : DS.CommStatus) (c : DS_Config) : DS_Config :=
  {| fmsCommStatus := fmsCommStatus c;
     radioCommStatus := radioCommStatus c;
     robotCommStatus := st |}.

(** Modelled from the spec: [DS_Config::isConnectedToRobot]; the robot is
    marked connected while its comms status is Working (set by a successful
    parse, taken back by the watchdog). *)
Definition isConnectedToRobot (c : DS_Config) : bool :=
  DS.CommStatus_eqb (robotCommStatus c) DS.kCommsWorking.

(** ** The private members of [Protocol] *)

Record Protocol : Set := mkProtocol {
  m_sentFmsPackets : Z;
  m_sentRadioPackets : Z;
  m_sentRobotPackets : Z;
  m_receivedFmsPackets : Z;
  m_receivedRadioPackets : Z;
  m_receivedRobotPackets : Z;
  m_recvRobotPacketsSinceConnect : Z;
  m_sentRobotPacketsSinceConnect : Z
}.

(** The members by name, to read and write them uniformly. *)
Inductive Member : Set :=
| SentFms | SentRadio | SentRobot
| ReceivedFms | ReceivedRadio | ReceivedRobot
| RecvRobotSinceConnect | SentRobotSinceConnect.

Definition member (m : Member) (p : Protocol) : Z :=
  match m with
  | SentFms => m_sentFmsPackets p
  | SentRadio => m_sentRadioPackets p
  | SentRobot => m_sentRobotPackets p
  | ReceivedFms => m_receivedFmsPackets p
  | ReceivedRadio => m_receivedRadioPackets p
  | ReceivedRobot => m_receivedRobotPackets p
  | RecvRobotSinceConnect => m_recvRobotPacketsSinceConnect p
  | SentRobotSinceConnect => m_sentRobotPacketsSinceConnect p
  end.

Definition assign (m : Member) (v : Z) (p : Protocol) : Protocol :=
  let (a, b, c, d, e, f, g, h) := p in
  match m with
  | SentFms => mkProtocol v b c d e f g h
  | SentRadio => mkProtocol a v c d e f g h
  | SentRobot => mkProtocol a b v d e f g h
  | ReceivedFms => mkProtocol a b c v e f g h
  | ReceivedRadio => mkProtocol a b c d v f g h
  | ReceivedRobot => mkProtocol a b c d e v g h
  | RecvRobotSinceConnect => mkProtocol a b c d e f v h
  | SentRobotSinceConnect => mkProtocol a b c d e f g v
  end.

Definition Member_eqb (a b : Member) : bool :=
  match a, b with
  | SentFms, SentFms | SentRadio, SentRadio | SentRobot, SentRobot
  | ReceivedFms, ReceivedFms | ReceivedRadio, ReceivedRadio
  | ReceivedRobot, ReceivedRobot
  | RecvRobotSinceConnect, RecvRobotSinceConnect
  | SentRobotSinceConnect, SentRobotSinceConnect => true
  | _, _ => false
  end.

(** The six counters that live for the whole session. *)
Definition session_counter (m : Member) : bool :=
  match m with
  | RecvRobotSinceConnect | SentRobotSinceConnect => false
  | _ => true
  end.

(** [explicit Protocol()] *)
Definition Protocol_ctor : Protocol := mkProtocol 0 0 0 0 0 0 0 0.

(** ** State and the state monad the member functions run in

    A member function sees its own object and, through [config()], the
    [DS_Config] singleton. *)
Record World : Set := mkWorld {
  self : Protocol;
  config : DS_Config
}.

Definition M (A : Type) : Type := World -> A * World.

Definition ret {A} (a : A) : M A := fun w => (a, w).

Definition bind {A B} (m : M A) (k : A -> M B) : M B :=
  fun w => let (a, w') := m w in k a w'.

Declare Scope proto_scope.
Delimit Scope proto_scope with proto.
Notation "x <- m ;; k" := (bind m (fun x => k))
  (at level 61, m at next level, right associativity) : proto_scope.
Notation "m ;; k" := (bind m (fun _ => k))
  (at level 61, right associativity) : proto_scope.

(** [++m;] on a member *)
Definition pre_incr (m : Member) : M unit :=
  fun w => (tt, mkWorld (assign m (CInt.incr (member m (self w))) (self w)) (config w)).

(** [m = v;] on a member *)
Definition store (m : Member) (v : Z) : M unit :=
  fun w => (tt, mkWorld (assign m v (self w)) (config w)).

(** [config()->f (...)] for a writer [f] of the singleton *)
Definition on_config (f : DS_Config -> DS_Config) : M unit :=
  fun w => (tt, mkWorld (self w) (f (config w))).

(** [config()->f()] for a reader [f] of the singleton *)
Definition ask_config {A} (f : DS_Config -> A) : M A :=
  fun w => (f (config w), w).

Definition run {A} (m : M A) (w : World) : A * World := m w.
Definition result {A} (m : M A) (w : World) : A := fst (m w).
Definition after {A} (m : M A) (w : World) : World := snd (m w).

(** ** Virtual methods

    A variant is a subclass of [Protocol]; what it is, for the base class,
    is the set of virtual methods it overrides.  [None] stands for a method
    the subclass inherits.  The hooks write neither the counters (private
    members of [Protocol]) nor the comms status (which the read wrappers
    record on the hook's behalf): an encoder is a function of the
    configuration it reads, a decoder is seen through its verdict on the
    bytes. *)
Record Variant : Type := mkVariant {
  ov_fmsFrequency : option Z;
  ov_radioFrequency : option Z;
  ov_robotFrequency : option Z;
  ov_fmsInputPort : option Z;
  ov_fmsOutputPort : option Z;
  ov_radioInputPort : option Z;
  ov_robotInputPort : option Z;
  ov_radioOutputPort : option Z;
  ov_robotOutputPort : option Z;
  ov_netconsoleInputPort : option Z;
  ov_netconsoleOutputPort : option Z;
  ov_fmsSocketType : option DS.SocketType;
  ov_radioSocketType : option DS.SocketType;
  ov_robotSocketType : option DS.SocketType;
  ov_fmsAddress : option QString;
  ov_getFMSPacket : option (DS_Config -> QByteArray);
  ov_getRadioPacket : option (DS_Config -> QByteArray);
  ov_getRobotPacket : option (DS_Config -> QByteArray);
  ov_interpretFMSPacket : option (QByteArray -> bool);
  ov_interpretRadioPacket : option (QByteArray -> bool);
  ov_interpretRobotPacket : option (QByteArray -> bool)
}.

(** Virtual dispatch: the override when there is one, the body written in
    [Protocol] otherwise. *)
Definition virtual {A} (override : option A) (inherited : A) : A :=
  match override with
  | Some f => f
  | None => inherited
  end.

(** The base class itself overrides nothing. *)
Definition Protocol_base : Variant :=
  mkVariant None None None None None None None None None None None
            None None None None None None None None None None.

(** [class FRC_2015 : public Protocol].  The header declares which of the
    methods above the subclass overrides; their bodies live in the
    implementation file and are left open.  No radio method is overridden. *)
Section FRC_2015.

Variables fmsFreq robotFreq : Z.
Variables fmsIn fmsOut robotIn robotOut netconsoleIn : Z.
Variables fmsSocket robotSocket : DS.SocketType.
Variables encodeFMS encodeRobot : DS_Config -> QByteArray.
Variables decodeFMS decodeRobot : QByteArray -> bool.

Definition FRC_2015 : Variant :=
  {| ov_fmsFrequency := Some fmsFreq;
     ov_radioFrequency := None;
     ov_robotFrequency := Some robotFreq;
     ov_fmsInputPort := Some fmsIn;
     ov_fmsOutputPort := Some fmsOut;
     ov_radioInputPort := None;
     ov_robotInputPort := Some robotIn;
     ov_radioOutputPort := None;
     ov_robotOutputPort := Some robotOut;
     ov_netconsoleInputPort := Some netconsoleIn;
     ov_netconsoleOutputPort := None;
     ov_fmsSocketType := Some fmsSocket;
     ov_radioSocketType := None;
     ov_robotSocketType := Some robotSocket;
     ov_fmsAddress := None;
     ov_getFMSPacket := Some encodeFMS;
     ov_getRadioPacket := None;
     ov_getRobotPacket := Some encodeRobot;
     ov_interpretFMSPacket := Some decodeFMS;
     ov_interpretRadioPacket := None;
     ov_interpretRobotPacket := Some decodeRobot |}.

End FRC_2015.

Definition fmsFrequency (V : Variant) : Z := virtual (ov_fmsFrequency V) 1.
Definition radioFrequency (V : Variant) : Z := virtual (ov_radioFrequency V) 1.
Definition robotFrequency (V : Variant) : Z := virtual (ov_robotFrequency V) 1.

Section Ports.

(** The macro [DS_DISABLED_PORT] comes from a header outside this
    development; its value is left open. *)
Variable DS_DISABLED_PORT : Z.

Definition fmsInputPort (V : Variant) : Z :=
  virtual (ov_fmsInputPort V) DS_DISABLED_PORT.
Definition fmsOutputPort (V : Variant) : Z :=
  virtual (ov_fmsOutputPort V) DS_DISABLED_PORT.
Definition radioInputPort (V : Variant) : Z :=
  virtual (ov_radioInputPort V) DS_DISABLED_PORT.
Definition robotInputPort (V : Variant) : Z :=
  virtual (ov_robotInputPort V) DS_DISABLED_PORT.
Definition radioOutputPort (V : Variant) : Z :=
  virtual (ov_radioOutputPort V) DS_DISABLED_PORT.
Definition robotOutputPort (V : Variant) : Z :=
  virtual (ov_robotOutputPort V) DS_DISABLED_PORT.
Definition netconsoleInputPort (V : Variant) : Z :=
  virtual (ov_netconsoleInputPort V) DS_DISABLED_PORT.
Definition netconsoleOutputPort (V : Variant) : Z :=
  virtual (ov_netconsoleOutputPort V) DS_DISABLED_PORT.

End Ports.

Definition fmsSocketType (V : Variant) : DS.SocketType :=
  virtual (ov_fmsSocketType V) DS.kSocketTypeUDP.
Definition radioSocketType (V : Variant) : DS.SocketType :=
  virtual (ov_radioSocketType V) DS.kSocketTypeUDP.
Definition robotSocketType (V : Variant) : DS.SocketType :=
  virtual (ov_robotSocketType V) DS.kSocketTypeUDP.

Definition fmsAddress (V : Variant) : QString :=
  virtual (ov_fmsAddress V) EmptyString.

Local Open Scope proto_scope.

(** [QByteArray()] *)
Definition QByteArray_empty : QByteArray := [].

Definition getFMSPacket (V : Variant) : M QByteArray :=
  ask_config (virtual (ov_getFMSPacket V) (fun _ => QByteArray_empty)).
Definition getRadioPacket (V : Variant) : M QByteArray :=
  ask_config (virtual (ov_getRadioPacket V) (fun _ => QByteArray_empty)).
Definition getRobotPacket (V : Variant) : M QByteArray :=
  ask_config (virtual (ov_getRobotPacket V) (fun _ => QByteArray_empty)).

Definition interpretFMSPacket (V : Variant) (data : QByteArray) : bool :=
  virtual (ov_interpretFMSPacket V) (fun _ => false) data.
Definition interpretRadioPacket (V : Variant) (data : QByteArray) : bool :=
  virtual (ov_interpretRadioPacket V) (fun _ => false) data.
Definition interpretRobotPacket (V : Variant) (data : QByteArray) : bool :=
  virtual (ov_interpretRobotPacket V) (fun _ => false) data.

(** ** The non-virtual member functions *)

Definition generateFMSPacket (V : Variant) : M QByteArray :=
  pre_incr SentFms ;;
  getFMSPacket V.

Definition generateRadioPacket (V : Variant) : M QByteArray :=
  pre_incr SentRadio ;;
  getRadioPacket V.

Definition generateRobotPacket (V : Variant) : M QByteArray :=
  pre_incr SentRobot ;;
  pre_incr SentRobotSinceConnect ;;
  getRobotPacket V.

Definition resetLossCounter : M unit :=
  store RecvRobotSinceConnect 0 ;;
  store SentRobotSinceConnect 0.

Definition readFMSPacket (V : Variant) (data : QByteArray) : M bool :=
  pre_incr ReceivedFms ;;
  if interpretFMSPacket V data then
    (on_config (updateFMSCommStatus DS.kCommsWorking) ;;
     ret true)
  else ret false.

Definition readRadioPacket (V : Variant) (data : QByteArray) : M bool :=
  pre_incr ReceivedRadio ;;
  if interpretRadioPacket V data then
    (on_config (updateRadioCommStatus DS.kCommsWorking) ;;
     ret true)
  else ret false.

Definition readRobotPacket (V : Variant) (data : QByteArray) : M bool :=
  pre_incr ReceivedRobot ;;
  pre_incr RecvRobotSinceConnect ;;
  if interpretRobotPacket V data then
    (connected <- ask_config isConnectedToRobot ;;
     (if negb connected then resetLossCounter else ret tt) ;;
     on_config (updateRobotCommStatus DS.kCommsWorking) ;;
     ret true)
  else ret false.

(** The accessors, as the header has them. *)
Definition sentFMSPackets (p : Protocol) : Z := m_sentFmsPackets p.
Definition sentRadioPackets (p : Protocol) : Z := m_sentRadioPackets p.
Definition sentRobotPackets (p : Protocol) : Z := m_sentRobotPackets p.
Definition receivedFMSPackets (p : Protocol) : Z := m_receivedRobotPackets p.
Definition receivedRadioPackets (p : Protocol) : Z := m_receivedRobotPackets p.
Definition receivedRobotPackets (p : Protocol) : Z := m_receivedRobotPackets p.
Definition recvRobotPacketsSinceConnect (p : Protocol) : Z :=
  m_recvRobotPacketsSinceConnect p.
Definition sentRobotPacketsSinceConnect (p : Protocol) : Z :=
  m_sentRobotPacketsSinceConnect p.

(** ** Sequences of calls

    The public calls that write state, and what a sequence of them does to
    a [World]. *)
Inductive Peer : Set := FMS | Radio | Robot.

Inductive Call : Set :=
| GenerateFMSPacket
| GenerateRadioPacket
| GenerateRobotPacket
| ReadFMSPacket (data : QByteArray)
| ReadRadioPacket (data : QByteArray)
| ReadRobotPacket (data : QByteArray)
| ResetLossCounter.

Definition exec (V : Variant) (c : Call) : World -> World :=
  match c with
  | GenerateFMSPacket => after (generateFMSPacket V)
  | GenerateRadioPacket => after (generateRadioPacket V)
  | GenerateRobotPacket => after (generateRobotPacket V)
  | ReadFMSPacket data => after (readFMSPacket V data)
  | ReadRadioPacket data => after (readRadioPacket V data)
  | ReadRobotPacket data => after (readRobotPacket V data)
  | ResetLossCounter => after resetLossCounter
  end.

Definition exec_all (V : Variant) (cs : list Call) (w : World) : World :=
  fold_left (fun w c => exec V c w) cs w.

Definition generate_call (p : Peer) : Call :=
  match p with
  | FMS => GenerateFMSPacket
  | Radio => GenerateRadioPacket
  | Robot => GenerateRobotPacket
  end.

Definition read_call (p : Peer) (data : QByteArray) : Call :=
  match p with
  | FMS => ReadFMSPacket data
  | Radio => ReadRadioPacket data
  | Robot => ReadRobotPacket data
  end.

Definition sent_member (p : Peer) : Member :=
  match p with
  | FMS => SentFms
  | Radio => SentRadio
  | Robot => SentRobot
  end.

Definition received_member (p : Peer) : Member :=
  match p with
  | FMS => ReceivedFms
  | Radio => ReceivedRadio
  | Robot => ReceivedRobot
  end.

(** The members a call applies [++] to. *)
Definition incremented (c : Call) : list Member :=
  match c with
  | GenerateFMSPacket => [SentFms]
  | GenerateRadioPacket => [SentRadio]
  | GenerateRobotPacket => [SentRobot; SentRobotSinceConnect]
  | ReadFMSPacket _ => [ReceivedFms]
  | ReadRadioPacket _ => [ReceivedRadio]
  | ReadRobotPacket _ => [ReceivedRobot; RecvRobotSinceConnect]
  | ResetLossCounter => []
  end.

(** No [++] of the call steps over [INT_MAX]. *)
Definition no_overflow (c : Call) (w : World) : bool :=
  forallb (fun m => CInt.can_incr (member m (self w))) (incremented c).

Fixpoint no_overflow_all (V : Variant) (cs : list Call) (w : World) : bool :=
  match cs with
  | [] => true
  | c :: cs' => no_overflow c w && no_overflow_all V cs' (exec V c w)
  end.

(** The states a session can be in: the object is constructed next to a
    singleton in any state; calls arrive in any order, none of them
    overflowing a counter; the other owners of the singleton (the watchdogs,
    for one) may rewrite it between calls. *)
Inductive reachable (V : Variant) : World -> Prop :=
| reach_ctor cfg :
    reachable V (mkWorld Protocol_ctor cfg)
| reach_call c w :
    reachable V w -> no_overflow c w = true -> reachable V (exec V c w)
| reach_config cfg w :
    reachable V w -> reachable V (mkWorld (self w) cfg).

(** Test doubles: a disconnected singleton, a variant whose robot decoder
    takes every packet, and one that only supplies a radio encoder. *)
Definition all_failing : DS_Config :=
  mkConfig DS.kCommsFailing DS.kCommsFailing DS.kCommsFailing.

Definition fresh : World := mkWorld Protocol_ctor all_failing.

Definition accepting_robot : Variant :=
  mkVariant None None None None None None None None None None None
            None None None None None None None None None (Some (fun _ => true)).

Definition radio_encoder_only : Variant :=
  mkVariant None None None None None None None None None None None
            None None None None None (Some (fun _ => [x01])) None None None None.

(** ** Per-peer views

    The member functions come in threes, one per peer; these pick the one
    that belongs to a peer. *)
Definition frequency (V : Variant) (p : Peer) : Z :=
  match p with
  | FMS => fmsFrequency V
  | Radio => radioFrequency V
  | Robot => robotFrequency V
  end.

Definition inputPort (DS_DISABLED_PORT : Z) (V : Variant) (p : Peer) : Z :=
  match p with
  | FMS => fmsInputPort DS_DISABLED_PORT V
  | Radio => radioInputPort DS_DISABLED_PORT V
  | Robot => robotInputPort DS_DISABLED_PORT V
  end.

Definition outputPort (DS_DISABLED_PORT : Z) (V : Variant) (p : Peer) : Z :=
  match p with
  | FMS => fmsOutputPort DS_DISABLED_PORT V
  | Radio => radioOutputPort DS_DISABLED_PORT V
  | Robot => robotOutputPort DS_DISABLED_PORT V
  end.

Definition socketType (V : Variant) (p : Peer) : DS.SocketType :=
  match p with
  | FMS => fmsSocketType V
  | Radio => radioSocketType V
  | Robot => robotSocketType V
  end.

Definition generatePacket (V : Variant) (p : Peer) : M QByteArray :=
  match p with
  | FMS => generateFMSPacket V
  | Radio => generateRadioPacket V
  | Robot => generateRobotPacket V
  end.

Definition readPacket (V : Variant) (p : Peer) (data : QByteArray) : M bool :=
  match p with
  | FMS => readFMSPacket V data
  | Radio => readRadioPacket V data
  | Robot => readRobotPacket V data
  end.

Definition interpretPacket (V : Variant) (p : Peer) (data : QByteArray) : bool :=
  match p with
  | FMS => interpretFMSPacket V data
  | Radio => interpretRadioPacket V data
  | Robot => interpretRobotPacket V data
  end.

Definition commStatus (c : DS_Config) (p : Peer) : DS.CommStatus :=
  match p with
  | FMS => fmsCommStatus c
  | Radio => radioCommStatus c
  | Robot => robotCommStatus c
  end.

(** The variant inherits the peer's transport parameters: frequency, both
    ports, socket type and, for the FMS, the address. *)
Definition transport_inherited (V : Variant) (p : Peer) : Prop :=
  match p with
  | FMS =>
      ov_fmsFrequency V = None /\ ov_fmsInputPort V = None /\
      ov_fmsOutputPort V = None /\ ov_fmsSocketType V = None /\
      ov_fmsAddress V = None
  | Radio =>
      ov_radioFrequency V = None /\ ov_radioInputPort V = None /\
      ov_radioOutputPort V = None /\ ov_radioSocketType V = None
  | Robot =>
      ov_robotFrequency V = None /\ ov_robotInputPort V = None /\
      ov_robotOutputPort V = None /\ ov_robotSocketType V = None
  end.

(** The variant inherits the peer's encoder. *)
Definition encoder_inherited (V : Variant) (p : Peer) : Prop :=
  match p with
  | FMS => ov_getFMSPacket V = None
  | Radio => ov_getRadioPacket V = None
  | Robot => ov_getRobotPacket V = None
  end.

(** The variant inherits the peer's decoder. *)
Definition decoder_inherited (V : Variant) (p : Peer) : Prop :=
  match p with
  | FMS => ov_interpretFMSPacket V = None
  | Radio => ov_interpretRadioPacket V = None
  | Robot => ov_interpretRobotPacket V = None
  end.

(** The window counters are non-negative and below the session counters. *)
Definition window_within_session (p : Protocol) : Prop :=
  0 <= m_recvRobotPacketsSinceConnect p <= m_receivedRobotPackets p /\
  0 <= m_sentRobotPacketsSinceConnect p <= m_sentRobotPackets p.

(** Whether a call applies [++] to a member. *)
Definition bumps (c : Call) (m : Member) : bool :=
  existsb (Member_eqb m) (incremented c).

(** Two robot packets sent, none received yet. *)
Definition two_sent : World :=
  exec_all accepting_robot [GenerateRobotPacket; GenerateRobotPacket] fresh.

(** Three packets sent around a reconnection, a reset by hand, one more
    packet read. *)
Definition session_with_reconnect : World :=
  exec_all accepting_robot
    [GenerateRobotPacket; GenerateRobotPacket; ReadRobotPacket [x00];
     GenerateRobotPacket; ResetLossCounter; ReadRobotPacket []]
    fresh.

(** How often a call occurs in a sequence. *)
Definition is_generate (p : Peer) (c : Call) : bool :=
  match p, c with
  | FMS, GenerateFMSPacket | Radio, GenerateRadioPacket
  | Robot, GenerateRobotPacket => true
  | _, _ => false
  end.

Definition is_read (p : Peer) (c : Call) : bool :=
  match p, c with
  | FMS, ReadFMSPacket _ | Radio, ReadRadioPacket _
  | Robot, ReadRobotPacket _ => true
  | _, _ => false
  end.

Definition occurrences (f : Call -> bool) (cs : list Call) : Z :=
  Z.of_nat (List.length (filter f cs)).

(** ** Views of a call, for the properties of call sequences *)

(** The peer a call belongs to; the loss window is the robot's. *)
Definition peer_of (c : Call) : Peer :=
  match c with
  | GenerateFMSPacket | ReadFMSPacket _ => FMS
  | GenerateRadioPacket | ReadRadioPacket _ => Radio
  | GenerateRobotPacket | ReadRobotPacket _ | ResetLossCounter => Robot
  end.

Definition Peer_eqb (a b : Peer) : bool :=
  match a, b with
  | FMS, FMS | Radio, Radio | Robot, Robot => true
  | _, _ => false
  end.

Definition is_reset (c : Call) : bool :=
  match c with
  | ResetLossCounter => true
  | _ => false
  end.

(** The call is a read for the peer and the peer's decoder takes the bytes. *)
Definition accepted_read (V : Variant) (p : Peer) (c : Call) : bool :=
  match p, c with
  | FMS, ReadFMSPacket data => interpretFMSPacket V data
  | Radio, ReadRadioPacket data => interpretRadioPacket V data
  | Robot, ReadRobotPacket data => interpretRobotPacket V data
  | _, _ => false
  end.

(** Both window counters equal their session counters. *)
Definition window_is_session (p : Protocol) : Prop :=
  m_recvRobotPacketsSinceConnect p = m_receivedRobotPackets p /\
  m_sentRobotPacketsSinceConnect p = m_sentRobotPackets p.

(** Every member lies between 0 and [B]. *)
Definition members_within (B : Z) (p : Protocol) : Prop :=
  forall m, 0 <= member m p <= B.

(** A variant whose three decoders take packets that start with a zero
    byte, and a session that echoes packets of two peers through it. *)
Definition starts_with_zero (data : QByteArray) : bool :=
  match data with
  | x00 :: _ => true
  | _ => false
  end.

Definition zero_header : Variant :=
  mkVariant None None None None None None None None None None None
            None None None None None None None
            (Some starts_with_zero) (Some starts_with_zero)
            (Some starts_with_zero).

Definition echo_session : list Call :=
  [GenerateRobotPacket; ReadRobotPacket [x00]; GenerateFMSPacket;
   ReadFMSPacket [x01]; GenerateRobotPacket; ReadRobotPacket [x00; x02];
   GenerateRobotPacket; ReadRobotPacket []; ReadFMSPacket [x00]].

(** Two robot packets sent, the robot marked connected. *)
Definition connected_two_sent : World :=
  mkWorld (self two_sent)
          (mkConfig DS.kCommsFailing DS.kCommsFailing DS.kCommsWorking).

(** * Properties *)

(** ** Arithmetic of [int] *)
Module CIntFacts.
Import CInt.

Lemma wrap_representable z : representable (wrap z).
Proof.
  unfold representable, wrap, INT_MIN, INT_MAX.
  pose proof (Z.mod_pos_bound (z + 2147483648) 4294967296 ltac:(lia)). lia.
Qed.

Lemma wrap_id z : representable z -> wrap z = z.
Proof.
  unfold representable, wrap, INT_MIN, INT_MAX. intros H.
  rewrite Z.mod_small; lia.
Qed.

Lemma can_incr_iff x : can_incr x = true <-> INT_MIN <= x < INT_MAX.
Proof. unfold can_incr. rewrite andb_true_iff, Z.leb_le, Z.ltb_lt. tauto. Qed.

Lemma incr_succ x : can_incr x = true -> incr x = x + 1.
Proof.
  rewrite can_incr_iff. unfold incr, INT_MIN, INT_MAX. intros H.
  apply wrap_id. unfold representable, INT_MIN, INT_MAX. lia.
Qed.

Lemma incr_at_max : incr INT_MAX = INT_MIN.
Proof. reflexivity. Qed.

End CIntFacts.

(** ** Reading and writing members *)

Lemma member_assign_same m v p : member m (assign m v p) = v.
Proof. destruct p, m; reflexivity. Qed.

Lemma member_assign_other m m' v p :
  m <> m' -> member m' (assign m v p) = member m' p.
Proof. destruct p, m, m'; intros H; try reflexivity; now elim H. Qed.

Lemma Member_eqb_eq a b : Member_eqb a b = true <-> a = b.
Proof. destruct a, b; simpl; split; intros H; congruence. Qed.

(** Unfolds a member function down to reads and writes of the record. *)
Ltac step_through :=
  unfold exec_all, exec, generatePacket, readPacket;
  unfold generateFMSPacket, generateRadioPacket, generateRobotPacket,
    readFMSPacket, readRadioPacket, readRobotPacket, resetLossCounter,
    getFMSPacket, getRadioPacket, getRobotPacket;
  unfold bind, ret, pre_incr, store, on_config, ask_config;
  unfold run, result, after;
  cbv beta iota zeta delta [fst snd self config negb andb].

(** Reads of a record written out field by field. *)
Ltac read_fields :=
  cbv beta iota zeta delta
      [self config member assign
       m_sentFmsPackets m_sentRadioPackets m_sentRobotPackets
       m_receivedFmsPackets m_receivedRadioPackets m_receivedRobotPackets
       m_recvRobotPacketsSinceConnect m_sentRobotPacketsSinceConnect] in *.

(** ** Window reset on reconnection *)

(** C1, as stated, fails: with the robot marked disconnected, a packet the
    decoder accepts leaves [recvRobotPacketsSinceConnect] at 0, not at 1. *)
Lemma reconnecting_packet_is_not_counted :
  isConnectedToRobot (config fresh) = false /\
  interpretRobotPacket accepting_robot [] = true /\
  recvRobotPacketsSinceConnect
    (self (after (readRobotPacket accepting_robot []) fresh)) <> 1.
Proof. repeat split. discriminate. Qed.

(** C1, amended: with the robot marked disconnected, [readRobotPacket] on
    bytes the decoder accepts returns true, counts the packet in
    [m_receivedRobotPackets], and only then resets the since-connect pair,
    which is therefore (0,0) when the call returns. *)
Theorem readRobotPacket_reconnect_resets_window V data w :
  isConnectedToRobot (config w) = false ->
  interpretRobotPacket V data = true ->
  exists w',
    run (readRobotPacket V data) w = (true, w') /\
    recvRobotPacketsSinceConnect (self w') = 0 /\
    sentRobotPacketsSinceConnect (self w') = 0 /\
    receivedRobotPackets (self w')
      = CInt.incr (receivedRobotPackets (self w)) /\
    robotCommStatus (config w') = DS.kCommsWorking.
Proof.
  intros Hdisc Hok. destruct w as [[a b c d e f g h] cfg].
  cbn [config] in Hdisc.
  step_through. rewrite Hok. step_through. rewrite Hdisc. step_through.
  eexists. repeat split.
Qed.

Lemma readRobotPacket_reconnect_resets_window_witness :
  isConnectedToRobot (config fresh) = false /\
  interpretRobotPacket accepting_robot [x00] = true /\
  exists w',
    run (readRobotPacket accepting_robot [x00]) fresh = (true, w') /\
    recvRobotPacketsSinceConnect (self w') = 0 /\
    sentRobotPacketsSinceConnect (self w') = 0 /\
    receivedRobotPackets (self w')
      = CInt.incr (receivedRobotPackets (self fresh)) /\
    robotCommStatus (config w') = DS.kCommsWorking.
Proof.
  split; [reflexivity | split; [reflexivity |]].
  apply (readRobotPacket_reconnect_resets_window accepting_robot [x00] fresh);
    reflexivity.
Defined.

(** ** Accessors *)

(** Six of the eight accessors return their own member. *)
Lemma own_counter_accessors p :
  sentFMSPackets p = member SentFms p /\
  sentRadioPackets p = member SentRadio p /\
  sentRobotPackets p = member SentRobot p /\
  receivedRobotPackets p = member ReceivedRobot p /\
  recvRobotPacketsSinceConnect p = member RecvRobotSinceConnect p /\
  sentRobotPacketsSinceConnect p = member SentRobotSinceConnect p.
Proof. repeat split. Qed.

(** C2: [receivedFMSPackets] and [receivedRadioPackets] return
    [m_receivedRobotPackets].  After one [readFMSPacket] (one
    [readRadioPacket]) on a new object the member that counts the reads
    holds 1 and the accessor answers 0; after one [readRobotPacket] both
    accessors answer 1 with no FMS or radio packet read. *)
Theorem received_accessors_read_robot_counter :
  (forall p, receivedFMSPackets p = m_receivedRobotPackets p) /\
  (forall p, receivedRadioPackets p = m_receivedRobotPackets p) /\
  (let w := exec_all Protocol_base [ReadFMSPacket []] fresh in
   occurrences (is_read FMS) [ReadFMSPacket []] = 1 /\
   m_receivedFmsPackets (self w) = 1 /\ receivedFMSPackets (self w) = 0) /\
  (let w := exec_all Protocol_base [ReadRadioPacket []] fresh in
   occurrences (is_read Radio) [ReadRadioPacket []] = 1 /\
   m_receivedRadioPackets (self w) = 1 /\ receivedRadioPackets (self w) = 0) /\
  (let w := exec_all Protocol_base [ReadRobotPacket []] fresh in
   occurrences (is_read FMS) [ReadRobotPacket []] = 0 /\
   receivedFMSPackets (self w) = 1 /\ receivedRadioPackets (self w) = 1).
Proof. repeat split. Qed.

(** ** The window stays inside the session *)

Lemma no_overflow_pair m1 m2 c w :
  incremented c = [m1; m2] ->
  no_overflow c w = true ->
  CInt.can_incr (member m1 (self w)) = true /\
  CInt.can_incr (member m2 (self w)) = true.
Proof.
  unfold no_overflow. intros ->. cbn [forallb].
  rewrite andb_true_r. apply andb_true_iff.
Qed.

Lemma exec_keeps_window V c w :
  no_overflow c w = true ->
  window_within_session (self w) ->
  window_within_session (self (exec V c w)).
Proof.
  intros Hno [Hr Hs]. unfold window_within_session in *.
  destruct w as [[a b c0 d e f g h] cfg].
  destruct c; step_through; read_fields; auto.
  - (* generateRobotPacket *)
    destruct (no_overflow_pair SentRobot SentRobotSinceConnect
                GenerateRobotPacket _ eq_refl Hno) as [H1 H2].
    read_fields.
    rewrite (CIntFacts.incr_succ _ H1), (CIntFacts.incr_succ _ H2). lia.
  - (* readFMSPacket *)
    destruct (interpretFMSPacket V data); read_fields; auto.
  - (* readRadioPacket *)
    destruct (interpretRadioPacket V data); read_fields; auto.
  - (* readRobotPacket *)
    destruct (no_overflow_pair ReceivedRobot RecvRobotSinceConnect
                (ReadRobotPacket data) _ eq_refl Hno) as [H1 H2].
    read_fields.
    destruct (interpretRobotPacket V data); cbn [fst snd]; read_fields.
    + destruct (isConnectedToRobot cfg); cbn [negb fst snd]; read_fields;
        rewrite ?(CIntFacts.incr_succ _ H1), ?(CIntFacts.incr_succ _ H2); lia.
    + rewrite (CIntFacts.incr_succ _ H1), (CIntFacts.incr_succ _ H2). lia.
  - (* resetLossCounter *)
    lia.
Qed.

Lemma reachable_window V w :
  reachable V w -> window_within_session (self w).
Proof.
  induction 1 as [cfg | c w Hw IH Hno | cfg w Hw IH].
  - unfold window_within_session. cbn. lia.
  - now apply exec_keeps_window.
  - exact IH.
Qed.

(** C3, as stated, fails: one [readRobotPacket] on a new object, rejected
    by the decoder, gives [recvRobotPacketsSinceConnect = 1] over
    [sentRobotPacketsSinceConnect = 0]. *)
Lemma read_before_generate_exceeds_sent :
  let w := exec_all Protocol_base [ReadRobotPacket []] fresh in
  reachable Protocol_base w /\
  ~ (0 <= recvRobotPacketsSinceConnect (self w) /\
     recvRobotPacketsSinceConnect (self w)
       <= sentRobotPacketsSinceConnect (self w)).
Proof.
  split.
  - apply (reach_call Protocol_base (ReadRobotPacket []) fresh).
    + apply reach_ctor.
    + reflexivity.
  - cbn. lia.
Qed.

(** C3, amended: in every reachable state both counters of the window are
    non-negative. *)
Theorem window_counters_nonnegative V w :
  reachable V w ->
  0 <= recvRobotPacketsSinceConnect (self w) /\
  0 <= sentRobotPacketsSinceConnect (self w).
Proof.
  intros H. destruct (reachable_window V w H) as [Hr Hs].
  unfold recvRobotPacketsSinceConnect, sentRobotPacketsSinceConnect. lia.
Qed.

Lemma one_rejected_read_reachable :
  reachable Protocol_base (exec Protocol_base (ReadRobotPacket [x00]) fresh).
Proof. apply reach_call; [apply reach_ctor | reflexivity]. Qed.

Lemma window_counters_nonnegative_witness :
  reachable Protocol_base (exec Protocol_base (ReadRobotPacket [x00]) fresh) /\
  0 <= recvRobotPacketsSinceConnect
         (self (exec Protocol_base (ReadRobotPacket [x00]) fresh)) /\
  0 <= sentRobotPacketsSinceConnect
         (self (exec Protocol_base (ReadRobotPacket [x00]) fresh)).
Proof.
  split; [exact one_rejected_read_reachable |].
  apply (window_counters_nonnegative Protocol_base).
  exact one_rejected_read_reachable.
Defined.

(** C5: in every reachable state [sentRobotPacketsSinceConnect] is at most
    [sentRobotPackets] and [recvRobotPacketsSinceConnect] is at most
    [receivedRobotPackets]. *)
Theorem window_counters_below_session V w :
  reachable V w ->
  sentRobotPacketsSinceConnect (self w) <= sentRobotPackets (self w) /\
  recvRobotPacketsSinceConnect (self w) <= receivedRobotPackets (self w).
Proof.
  intros H. destruct (reachable_window V w H) as [Hr Hs].
  unfold sentRobotPacketsSinceConnect, sentRobotPackets,
    recvRobotPacketsSinceConnect, receivedRobotPackets. lia.
Qed.

Lemma session_with_reconnect_reachable :
  reachable accepting_robot session_with_reconnect.
Proof.
  unfold session_with_reconnect, exec_all. cbn [fold_left].
  repeat (apply reach_call; [ | reflexivity]). apply reach_ctor.
Qed.

Lemma window_counters_below_session_witness :
  reachable accepting_robot session_with_reconnect /\
  sentRobotPacketsSinceConnect (self session_with_reconnect)
    <= sentRobotPackets (self session_with_reconnect) /\
  recvRobotPacketsSinceConnect (self session_with_reconnect)
    <= receivedRobotPackets (self session_with_reconnect).
Proof.
  split; [exact session_with_reconnect_reachable |].
  apply (window_counters_below_session accepting_robot).
  exact session_with_reconnect_reachable.
Defined.

(** ** Reading a packet *)

(** C4, as stated, fails for the window counter: a packet accepted while
    the robot is marked disconnected leaves [m_recvRobotPacketsSinceConnect]
    at 0, whatever it was, instead of one above its old value. *)
Lemma accepted_reconnect_drops_window_increment :
  interpretRobotPacket accepting_robot [x01] = true /\
  let w' := after (readRobotPacket accepting_robot [x01]) two_sent in
  m_recvRobotPacketsSinceConnect (self w')
    <> CInt.incr (m_recvRobotPacketsSinceConnect (self two_sent)) /\
  m_recvRobotPacketsSinceConnect (self w')
    <> m_recvRobotPacketsSinceConnect (self two_sent) + 1.
Proof. repeat split; discriminate. Qed.

(** C4, amended: every [read*Packet] call returns (it is a total function)
    the decoder's verdict on the bytes, and has incremented the peer's
    received counter whatever the verdict.  For the robot,
    [m_recvRobotPacketsSinceConnect] is incremented as well and keeps the
    increment unless the packet is accepted while the robot is marked
    disconnected; the window is then reset and the counter ends at 0.  On
    acceptance the peer's comms status is Working; on rejection the
    configuration is unchanged. *)
Theorem readPacket_counts_then_decodes V p data w :
  exists w',
    run (readPacket V p data) w = (interpretPacket V p data, w') /\
    member (received_member p) (self w')
      = CInt.incr (member (received_member p) (self w)) /\
    m_recvRobotPacketsSinceConnect (self w')
      = match p with
        | Robot =>
            if interpretRobotPacket V data && negb (isConnectedToRobot (config w))
            then 0
            else CInt.incr (m_recvRobotPacketsSinceConnect (self w))
        | _ => m_recvRobotPacketsSinceConnect (self w)
        end /\
    (if interpretPacket V p data
     then commStatus (config w') p = DS.kCommsWorking
     else config w' = config w).
Proof.
  destruct w as [[a b c d e f g h] cfg].
  destruct p; unfold interpretPacket; step_through.
  - destruct (interpretFMSPacket V data); eexists; repeat split.
  - destruct (interpretRadioPacket V data); eexists; repeat split.
  - destruct (interpretRobotPacket V data); step_through.
    + destruct (isConnectedToRobot cfg); step_through; eexists; repeat split.
    + eexists; repeat split.
Qed.

(** ** Counting calls *)

Ltac overflow_facts H :=
  unfold no_overflow in H; cbn [incremented forallb] in H;
  rewrite ?andb_true_r in H;
  try match type of H with
      | andb _ _ = true => apply andb_true_iff in H; destruct H as [? ?]
      end.

Ltac exact_incr :=
  repeat match goal with
    | H : CInt.can_incr ?x = true |- context [CInt.incr ?x] =>
        rewrite (CIntFacts.incr_succ x H)
    end.

Ltac decide_decoders V data :=
  try destruct (interpretFMSPacket V data);
  try destruct (interpretRadioPacket V data);
  try destruct (interpretRobotPacket V data).

(** What one call does to a session counter. *)
Lemma exec_session_counter V c m w :
  session_counter m = true ->
  no_overflow c w = true ->
  member m (self (exec V c w))
    = member m (self w) + (if bumps c m then 1 else 0).
Proof.
  intros Hm Hno. destruct w as [[a b c0 d e f g h] cfg].
  destruct c; overflow_facts Hno; step_through;
    decide_decoders V data; cbn [fst snd negb];
    try destruct (isConnectedToRobot cfg); cbn [fst snd negb];
    destruct m; try discriminate Hm;
    read_fields; cbn [bumps incremented existsb Member_eqb orb];
    exact_incr; lia.
Qed.

Lemma bumps_generate p c : bumps c (sent_member p) = is_generate p c.
Proof. destruct p, c; reflexivity. Qed.

Lemma bumps_read p c : bumps c (received_member p) = is_read p c.
Proof. destruct p, c; reflexivity. Qed.

Lemma session_sent p : session_counter (sent_member p) = true.
Proof. destruct p; reflexivity. Qed.

Lemma session_received p : session_counter (received_member p) = true.
Proof. destruct p; reflexivity. Qed.

(** Over a sequence of calls a session counter advances by the number of
    calls that bump it. *)
Lemma exec_all_session_counter V m cs : forall w,
  session_counter m = true ->
  no_overflow_all V cs w = true ->
  member m (self (exec_all V cs w))
    = member m (self w) + occurrences (fun c => bumps c m) cs.
Proof.
  unfold occurrences. induction cs as [| c cs IH]; intros w Hm Hno.
  - cbn. lia.
  - cbn [no_overflow_all] in Hno. apply andb_true_iff in Hno as [Hc Hcs].
    unfold exec_all in *. cbn [fold_left filter].
    rewrite (IH _ Hm Hcs), (exec_session_counter V c m w Hm Hc).
    destruct (bumps c m); cbn [List.length]; lia.
Qed.

Lemma occurrences_repeat f c n :
  f c = true -> occurrences f (repeat c n) = Z.of_nat n.
Proof.
  intros Hf. unfold occurrences. induction n as [| n IH].
  - reflexivity.
  - cbn [repeat filter]. rewrite Hf. cbn [List.length]. lia.
Qed.

Lemma occurrences_map_read p ds :
  occurrences (fun c => bumps c (received_member p)) (map (read_call p) ds)
    = Z.of_nat (List.length ds).
Proof.
  unfold occurrences. induction ds as [| d ds IH].
  - reflexivity.
  - cbn [map filter]. rewrite bumps_read.
    replace (is_read p (read_call p d)) with true by (destruct p; reflexivity).
    cbn [List.length]. lia.
Qed.

(** C6: [n] calls in a row to a peer's generate operation raise its sent
    counter by [n]; reading the packets [ds] one after the other raises its
    received counter by the number of packets; and no call lowers any of
    the six session counters.  Each part holds for calls that stay below
    [INT_MAX]. *)
Theorem counters_advance_with_calls V p :
  (forall n w,
     no_overflow_all V (repeat (generate_call p) n) w = true ->
     member (sent_member p) (self (exec_all V (repeat (generate_call p) n) w))
       = member (sent_member p) (self w) + Z.of_nat n) /\
  (forall ds w,
     no_overflow_all V (map (read_call p) ds) w = true ->
     member (received_member p) (self (exec_all V (map (read_call p) ds) w))
       = member (received_member p) (self w) + Z.of_nat (List.length ds)) /\
  (forall c m w,
     session_counter m = true ->
     no_overflow c w = true ->
     member m (self w) <= member m (self (exec V c w))).
Proof.
  repeat split.
  - intros n w Hno.
    rewrite (exec_all_session_counter V _ _ w (session_sent p) Hno).
    rewrite occurrences_repeat; [reflexivity |].
    rewrite bumps_generate. destruct p; reflexivity.
  - intros ds w Hno.
    rewrite (exec_all_session_counter V _ _ w (session_received p) Hno).
    now rewrite occurrences_map_read.
  - intros c m w Hm Hno. rewrite (exec_session_counter V c m w Hm Hno).
    destruct (bumps c m); lia.
Qed.

Lemma counters_advance_with_calls_witness :
  (no_overflow_all accepting_robot (repeat GenerateRobotPacket 3) two_sent
     = true /\
   member SentRobot
     (self (exec_all accepting_robot (repeat GenerateRobotPacket 3) two_sent))
     = member SentRobot (self two_sent) + 3) /\
  (no_overflow_all accepting_robot
     (map ReadRobotPacket [[x00]; []; [x01; x02]]) two_sent = true /\
   member ReceivedRobot
     (self (exec_all accepting_robot
              (map ReadRobotPacket [[x00]; []; [x01; x02]]) two_sent))
     = member ReceivedRobot (self two_sent) + 3) /\
  (session_counter ReceivedRobot = true /\
   no_overflow (ReadRobotPacket [x00]) two_sent = true /\
   member ReceivedRobot (self two_sent)
     <= member ReceivedRobot
          (self (exec accepting_robot (ReadRobotPacket [x00]) two_sent))).
Proof.
  destruct (counters_advance_with_calls accepting_robot Robot)
    as [Hgen [Hread Hmono]].
  split; [| split].
  - split; [reflexivity |]. apply (Hgen 3%nat two_sent). reflexivity.
  - split; [reflexivity |].
    apply (Hread [[x00]; []; [x01; x02]] two_sent). reflexivity.
  - split; [reflexivity | split; [reflexivity |]].
    apply (Hmono (ReadRobotPacket [x00]) ReceivedRobot two_sent); reflexivity.
Defined.

(** ** Defaults of a peer the variant leaves alone *)

(** C7, as stated, fails in its last part: a variant that inherits every
    transport parameter of the radio and overrides only [getRadioPacket]
    has the radio ports disabled and still generates a non-empty packet. *)
Lemma inherited_ports_do_not_empty_the_packet :
  transport_inherited radio_encoder_only Radio /\
  result (generatePacket radio_encoder_only Radio) fresh <> QByteArray_empty.
Proof. split; [repeat split | discriminate]. Qed.

(** C7, amended: for a variant that does not override a peer's transport
    parameters, both ports of the peer are [DS_DISABLED_PORT], the frequency
    is 1, the socket type is UDP and (for the FMS) the address is the empty
    string; if the variant does not override the peer's encoder either, the
    peer's generate operation returns an empty byte sequence. *)
Theorem inherited_peer_defaults DS_DISABLED_PORT V p w :
  transport_inherited V p ->
  inputPort DS_DISABLED_PORT V p = DS_DISABLED_PORT /\
  outputPort DS_DISABLED_PORT V p = DS_DISABLED_PORT /\
  frequency V p = 1 /\
  socketType V p = DS.kSocketTypeUDP /\
  (p = FMS -> fmsAddress V = EmptyString) /\
  (encoder_inherited V p ->
   result (generatePacket V p) w = QByteArray_empty).
Proof.
  destruct p; cbn [transport_inherited encoder_inherited inputPort outputPort
                   frequency socketType generatePacket].
  - intros (Hf & Hi & Ho & Hs & Ha).
    unfold fmsInputPort, fmsOutputPort, fmsFrequency, fmsSocketType, fmsAddress.
    rewrite Hf, Hi, Ho, Hs, Ha. repeat split.
    intros He. unfold result, generateFMSPacket, getFMSPacket, bind, pre_incr,
      ask_config. rewrite He. reflexivity.
  - intros (Hf & Hi & Ho & Hs).
    unfold radioInputPort, radioOutputPort, radioFrequency, radioSocketType.
    rewrite Hf, Hi, Ho, Hs. repeat split; try discriminate.
    intros He. unfold result, generateRadioPacket, getRadioPacket, bind,
      pre_incr, ask_config. rewrite He. reflexivity.
  - intros (Hf & Hi & Ho & Hs).
    unfold robotInputPort, robotOutputPort, robotFrequency, robotSocketType.
    rewrite Hf, Hi, Ho, Hs. repeat split; try discriminate.
    intros He. unfold result, generateRobotPacket, getRobotPacket, bind,
      pre_incr, ask_config. rewrite He. reflexivity.
Qed.

Lemma inherited_peer_defaults_witness :
  transport_inherited radio_encoder_only FMS /\
  inputPort (-1) radio_encoder_only FMS = -1 /\
  outputPort (-1) radio_encoder_only FMS = -1 /\
  frequency radio_encoder_only FMS = 1 /\
  socketType radio_encoder_only FMS = DS.kSocketTypeUDP /\
  (FMS = FMS -> fmsAddress radio_encoder_only = EmptyString) /\
  (encoder_inherited radio_encoder_only FMS ->
   result (generatePacket radio_encoder_only FMS) two_sent = QByteArray_empty).
Proof.
  split; [cbn; repeat split |].
  apply (inherited_peer_defaults (-1) radio_encoder_only FMS two_sent).
  cbn. repeat split.
Defined.

(** ** What a generate call writes *)

(** C8: [generateFMSPacket] applies [++] to [m_sentFmsPackets] only,
    [generateRadioPacket] to [m_sentRadioPackets] only, [generateRobotPacket]
    to [m_sentRobotPackets] and [m_sentRobotPacketsSinceConnect] only; every
    other member, the received counters and the receive side of the window
    among them, and the comms status of every peer keep their values. *)
Theorem generate_writes_sent_counters_only V w :
  (let w' := after (generateFMSPacket V) w in
   (forall m, member m (self w')
      = if Member_eqb m SentFms
        then CInt.incr (member m (self w)) else member m (self w)) /\
   config w' = config w) /\
  (let w' := after (generateRadioPacket V) w in
   (forall m, member m (self w')
      = if Member_eqb m SentRadio
        then CInt.incr (member m (self w)) else member m (self w)) /\
   config w' = config w) /\
  (let w' := after (generateRobotPacket V) w in
   (forall m, member m (self w')
      = if Member_eqb m SentRobot || Member_eqb m SentRobotSinceConnect
        then CInt.incr (member m (self w)) else member m (self w)) /\
   config w' = config w).
Proof.
  destruct w as [[a b c d e f g h] cfg].
  repeat split; try (intros m; destruct m; reflexivity).
Qed.

(** ** Inherited decoders *)

(** C9: a read through a decoder the variant inherits from [Protocol] (all
    three, for the base class) returns false on every byte sequence; the
    configuration, and with it every comms status, is left as it was; the
    members change by the call's increments alone, so the window is not
    reset. *)
Theorem inherited_decoder_rejects V p data w :
  decoder_inherited V p ->
  exists w',
    run (readPacket V p data) w = (false, w') /\
    config w' = config w /\
    (forall m, member m (self w')
       = if bumps (read_call p data) m
         then CInt.incr (member m (self w)) else member m (self w)).
Proof.
  destruct w as [[a b c d e f g h] cfg].
  destruct p; cbn [decoder_inherited]; intros Hd; step_through;
    unfold interpretFMSPacket, interpretRadioPacket, interpretRobotPacket;
    rewrite Hd; cbn [virtual]; eexists; repeat split;
    intros m; destruct m; reflexivity.
Qed.

Lemma inherited_decoder_rejects_witness :
  decoder_inherited Protocol_base Robot /\
  exists w',
    run (readPacket Protocol_base Robot [x00; x01]) two_sent = (false, w') /\
    config w' = config two_sent /\
    (forall m, member m (self w')
       = if bumps (read_call Robot [x00; x01]) m
         then CInt.incr (member m (self two_sent))
         else member m (self two_sent)).
Proof.
  split; [reflexivity |].
  apply (inherited_decoder_rejects Protocol_base Robot [x00; x01] two_sent).
  reflexivity.
Defined.

(** ** Resetting the window *)

(** C10: [resetLossCounter] returns from every state, leaves both window
    counters at 0, keeps the six session counters and the configuration,
    and a second call right after the first changes nothing. *)
Theorem resetLossCounter_idempotent w :
  exists w',
    run resetLossCounter w = (tt, w') /\
    m_recvRobotPacketsSinceConnect (self w') = 0 /\
    m_sentRobotPacketsSinceConnect (self w') = 0 /\
    (forall m, member m (self w')
       = if session_counter m then member m (self w) else 0) /\
    config w' = config w /\
    after resetLossCounter w' = w'.
Proof.
  destruct w as [[a b c d e f g h] cfg]. eexists. repeat split.
  intros m; destruct m; reflexivity.
Qed.

(** ** The variant of the repository *)

(** [FRC_2015] leaves the radio alone: transport parameters, encoder and
    decoder of the radio peer are the ones written in [Protocol]. *)
Lemma FRC_2015_inherits_radio
      ff rf fi fo ri ro ni fs rs (ef er : DS_Config -> QByteArray)
      (df dr : QByteArray -> bool) :
  let V := FRC_2015 ff rf fi fo ri ro ni fs rs ef er df dr in
  transport_inherited V Radio /\
  encoder_inherited V Radio /\
  decoder_inherited V Radio.
Proof. cbn. repeat split. Qed.

(** * Further properties of call sequences *)

Lemma exec_all_cons V c cs w :
  exec_all V (c :: cs) w = exec_all V cs (exec V c w).
Proof. reflexivity. Qed.

Lemma occurrences_cons f c cs :
  occurrences f (c :: cs) = (if f c then 1 else 0) + occurrences f cs.
Proof.
  unfold occurrences. cbn [filter]. destruct (f c); cbn [List.length]; lia.
Qed.

Lemma occurrences_ext f g cs :
  (forall c, f c = g c) -> occurrences f cs = occurrences g cs.
Proof.
  intros H. unfold occurrences. now rewrite (filter_ext f g H).
Qed.

Lemma occurrences_bounds f cs :
  0 <= occurrences f cs <= Z.of_nat (List.length cs).
Proof.
  induction cs as [| c cs IH].
  - cbn. lia.
  - rewrite occurrences_cons. cbn [List.length]. destruct (f c); lia.
Qed.

(** ** Counting under interleaving *)

(** X1: in any sequence of calls, interleaved however one likes, the sent
    counter of a peer advances by the number of its generate calls and the
    received counter by the number of its read calls. *)
Theorem interleaved_calls_advance_counters V cs w p :
  no_overflow_all V cs w = true ->
  member (sent_member p) (self (exec_all V cs w))
    = member (sent_member p) (self w) + occurrences (is_generate p) cs /\
  member (received_member p) (self (exec_all V cs w))
    = member (received_member p) (self w) + occurrences (is_read p) cs.
Proof.
  intros Hno. split.
  - rewrite (exec_all_session_counter V _ cs w (session_sent p) Hno).
    f_equal. apply occurrences_ext. intros c. apply bumps_generate.
  - rewrite (exec_all_session_counter V _ cs w (session_received p) Hno).
    f_equal. apply occurrences_ext. intros c. apply bumps_read.
Qed.

Lemma interleaved_calls_advance_counters_witness :
  no_overflow_all zero_header echo_session two_sent = true /\
  member (sent_member Robot) (self (exec_all zero_header echo_session two_sent))
    = member (sent_member Robot) (self two_sent)
      + occurrences (is_generate Robot) echo_session /\
  member (received_member Robot)
    (self (exec_all zero_header echo_session two_sent))
    = member (received_member Robot) (self two_sent)
      + occurrences (is_read Robot) echo_session.
Proof.
  split; [reflexivity |].
  apply (interleaved_calls_advance_counters zero_header echo_session two_sent
           Robot).
  reflexivity.
Defined.

(** ** Room for calls *)

Lemma members_within_can_incr B p m :
  members_within B p -> B < CInt.INT_MAX ->
  CInt.can_incr (member m p) = true.
Proof.
  intros H HB. apply CIntFacts.can_incr_iff.
  specialize (H m). unfold CInt.INT_MIN, CInt.INT_MAX in *. lia.
Qed.

Lemma members_within_no_overflow B c w :
  members_within B (self w) -> B < CInt.INT_MAX -> no_overflow c w = true.
Proof.
  intros H HB. unfold no_overflow. apply forallb_forall.
  intros m _. now apply (members_within_can_incr B).
Qed.

Lemma exec_members_within V B c w :
  members_within B (self w) -> B < CInt.INT_MAX ->
  members_within (B + 1) (self (exec V c w)).
Proof.
  intros H HB.
  assert (Hc : forall m, CInt.can_incr (member m (self w)) = true)
    by (intros m; now apply (members_within_can_incr B)).
  destruct w as [[a b c0 d e f g h] cfg].
  pose proof (H SentFms); pose proof (H SentRadio); pose proof (H SentRobot);
    pose proof (H ReceivedFms); pose proof (H ReceivedRadio);
    pose proof (H ReceivedRobot); pose proof (H RecvRobotSinceConnect);
    pose proof (H SentRobotSinceConnect).
  pose proof (Hc SentFms); pose proof (Hc SentRadio); pose proof (Hc SentRobot);
    pose proof (Hc ReceivedFms); pose proof (Hc ReceivedRadio);
    pose proof (Hc ReceivedRobot); pose proof (Hc RecvRobotSinceConnect);
    pose proof (Hc SentRobotSinceConnect).
  clear H Hc. read_fields.
  destruct c; step_through; decide_decoders V data; step_through;
    try destruct (isConnectedToRobot cfg); step_through;
    intros m; destruct m; read_fields; exact_incr; lia.
Qed.

Lemma members_within_run V cs : forall B w,
  members_within B (self w) ->
  B + Z.of_nat (List.length cs) <= CInt.INT_MAX ->
  no_overflow_all V cs w = true.
Proof.
  induction cs as [| c cs IH]; intros B w H HB.
  - reflexivity.
  - cbn [List.length] in HB. cbn [no_overflow_all].
    rewrite (members_within_no_overflow B c w H) by lia.
    apply (IH (B + 1)); [apply exec_members_within; [exact H | lia] | lia].
Qed.

(** X2: a new object takes any sequence of up to [INT_MAX] calls without a
    counter stepping over [INT_MAX]. *)
Theorem new_object_has_room V cs cfg :
  Z.of_nat (List.length cs) <= CInt.INT_MAX ->
  no_overflow_all V cs (mkWorld Protocol_ctor cfg) = true.
Proof.
  intros Hlen. apply (members_within_run V cs 0); [| lia].
  intros m. destruct m; cbn; lia.
Qed.

Lemma new_object_has_room_witness :
  Z.of_nat (List.length echo_session) <= CInt.INT_MAX /\
  no_overflow_all zero_header echo_session (mkWorld Protocol_ctor all_failing)
    = true.
Proof.
  split; [unfold CInt.INT_MAX; cbn; lia |].
  apply (new_object_has_room zero_header echo_session all_failing).
  unfold CInt.INT_MAX; cbn; lia.
Defined.

(** X3: on a new object, after any sequence of up to [INT_MAX] calls, the
    three sent accessors and [receivedRobotPackets] return the number of
    calls of their own operation; [receivedFMSPackets] and
    [receivedRadioPackets] return the number of [readRobotPacket] calls
    too, while the members that count FMS and radio reads hold the numbers
    of those reads. *)
Theorem new_object_accessors_count_calls V cs cfg :
  Z.of_nat (List.length cs) <= CInt.INT_MAX ->
  let p := self (exec_all V cs (mkWorld Protocol_ctor cfg)) in
  sentFMSPackets p = occurrences (is_generate FMS) cs /\
  sentRadioPackets p = occurrences (is_generate Radio) cs /\
  sentRobotPackets p = occurrences (is_generate Robot) cs /\
  receivedRobotPackets p = occurrences (is_read Robot) cs /\
  receivedFMSPackets p = occurrences (is_read Robot) cs /\
  receivedRadioPackets p = occurrences (is_read Robot) cs /\
  m_receivedFmsPackets p = occurrences (is_read FMS) cs /\
  m_receivedRadioPackets p = occurrences (is_read Radio) cs.
Proof.
  intros Hlen p.
  assert (Hno : no_overflow_all V cs (mkWorld Protocol_ctor cfg) = true)
    by (apply (members_within_run V cs 0); [intros m; destruct m; cbn; lia | lia]).
  assert (Hs : forall q, member (sent_member q) p = occurrences (is_generate q) cs).
  { intros q. unfold p.
    rewrite (exec_all_session_counter V _ cs _ (session_sent q) Hno).
    rewrite (occurrences_ext _ (is_generate q)) by (intros c; apply bumps_generate).
    destruct q; reflexivity. }
  assert (Hr : forall q, member (received_member q) p = occurrences (is_read q) cs).
  { intros q. unfold p.
    rewrite (exec_all_session_counter V _ cs _ (session_received q) Hno).
    rewrite (occurrences_ext _ (is_read q)) by (intros c; apply bumps_read).
    destruct q; reflexivity. }
  repeat split.
  - exact (Hs FMS).
  - exact (Hs Radio).
  - exact (Hs Robot).
  - exact (Hr Robot).
  - exact (Hr Robot).
  - exact (Hr Robot).
  - exact (Hr FMS).
  - exact (Hr Radio).
Qed.

Lemma new_object_accessors_count_calls_witness :
  Z.of_nat (List.length echo_session) <= CInt.INT_MAX /\
  sentRobotPackets (self (exec_all zero_header echo_session fresh)) = 3 /\
  receivedRobotPackets (self (exec_all zero_header echo_session fresh)) = 3 /\
  receivedFMSPackets (self (exec_all zero_header echo_session fresh)) = 3 /\
  m_receivedFmsPackets (self (exec_all zero_header echo_session fresh)) = 2.
Proof.
  split; [unfold CInt.INT_MAX; cbn; lia |].
  destruct (new_object_accessors_count_calls zero_header echo_session
              all_failing)
    as (_ & _ & H3 & H4 & H5 & _ & H7 & _);
    [unfold CInt.INT_MAX; cbn; lia |].
  split; [exact H3 | split; [exact H4 | split; [exact H5 | exact H7]]].
Defined.

(** ** Comms status *)

Ltac decide_all_decoders :=
  repeat match goal with
    | |- context [interpretFMSPacket ?V ?d] =>
        destruct (interpretFMSPacket V d)
    | |- context [interpretRadioPacket ?V ?d] =>
        destruct (interpretRadioPacket V d)
    | |- context [interpretRobotPacket ?V ?d] =>
        destruct (interpretRobotPacket V d)
    end.

Lemma exec_comm_status V c w p :
  commStatus (config (exec V c w)) p
    = if accepted_read V p c then DS.kCommsWorking
      else commStatus (config w) p.
Proof.
  destruct w as [[a b c0 d e f g h] [x y z]].
  destruct c, p; step_through; unfold accepted_read;
    decide_all_decoders; step_through;
    try destruct (isConnectedToRobot _); reflexivity.
Qed.

(** X4: the calls write a comms status only to set it to Working.  After
    any sequence of calls a peer's status is Working if one of the reads of
    that peer was accepted, and is what it was before otherwise; no call
    ever takes a Working status back. *)
Theorem comm_status_after_calls V cs w p :
  commStatus (config (exec_all V cs w)) p
    = if existsb (accepted_read V p) cs then DS.kCommsWorking
      else commStatus (config w) p.
Proof.
  revert w. induction cs as [| c cs IH]; intros w.
  - reflexivity.
  - rewrite exec_all_cons, IH, exec_comm_status. cbn [existsb].
    destruct (accepted_read V p c), (existsb (accepted_read V p) cs);
      reflexivity.
Qed.

(** ** Peers do not interfere *)

(** X5: two calls that belong to different peers commute: the state after
    both is the same in either order. *)
Theorem calls_of_different_peers_commute V c1 c2 w :
  peer_of c1 <> peer_of c2 ->
  exec V c1 (exec V c2 w) = exec V c2 (exec V c1 w).
Proof.
  intros Hp. destruct w as [[a b c0 d e f g h] [x y z]].
  destruct c1, c2; try (now elim Hp); step_through;
    decide_all_decoders; step_through; unfold isConnectedToRobot;
    destruct z; reflexivity.
Qed.

Lemma calls_of_different_peers_commute_witness :
  peer_of (ReadRobotPacket [x00]) <> peer_of (ReadFMSPacket [x00; x01]) /\
  exec zero_header (ReadRobotPacket [x00])
    (exec zero_header (ReadFMSPacket [x00; x01]) two_sent)
  = exec zero_header (ReadFMSPacket [x00; x01])
      (exec zero_header (ReadRobotPacket [x00]) two_sent).
Proof.
  split; [discriminate |].
  apply (calls_of_different_peers_commute zero_header (ReadRobotPacket [x00])
           (ReadFMSPacket [x00; x01]) two_sent).
  discriminate.
Defined.

(** ** What a read call writes *)

(** X6: a read writes the received counter of its peer and, for the robot,
    the window; it leaves every sent session counter and the received
    counters of the other peers alone.  A robot read that is accepted while
    the robot is marked disconnected zeroes both window counters; any other
    robot read adds one to the receive side of the window and keeps the
    send side. *)
Theorem read_writes_own_counters_only V p data w m :
  member m (self (after (readPacket V p data) w))
    = if Member_eqb m (received_member p)
      then CInt.incr (member m (self w))
      else if session_counter m || negb (Peer_eqb p Robot)
      then member m (self w)
      else if interpretRobotPacket V data
              && negb (isConnectedToRobot (config w))
      then 0
      else if Member_eqb m RecvRobotSinceConnect
      then CInt.incr (member m (self w))
      else member m (self w).
Proof.
  destruct w as [[a b c d e f g h] cfg].
  destruct p; step_through; decide_all_decoders; step_through;
    try destruct (isConnectedToRobot cfg); step_through;
    destruct m; reflexivity.
Qed.

(** ** The loss window between resets *)

Lemma bumps_window_recv c :
  bumps c RecvRobotSinceConnect = is_read Robot c.
Proof. destruct c; reflexivity. Qed.

Lemma bumps_window_sent c :
  bumps c SentRobotSinceConnect = is_generate Robot c.
Proof. destruct c; reflexivity. Qed.

(** One call on a connected robot: the window counters move by the call's
    increments, and the robot stays connected. *)
Lemma exec_window_connected V c w :
  isConnectedToRobot (config w) = true ->
  is_reset c = false ->
  no_overflow c w = true ->
  isConnectedToRobot (config (exec V c w)) = true /\
  forall m, session_counter m = false ->
    member m (self (exec V c w))
      = member m (self w) + (if bumps c m then 1 else 0).
Proof.
  intros Hconn Hr Hno. destruct w as [[a b c0 d e f g h] cfg].
  cbn [config] in Hconn.
  destruct c; try discriminate Hr; overflow_facts Hno; step_through;
    decide_all_decoders; step_through; rewrite ?Hconn; step_through;
    (split; [first [exact Hconn | reflexivity] |]);
    intros m Hm; destruct m; try discriminate Hm;
    read_fields; cbn [bumps incremented existsb Member_eqb orb];
    exact_incr; lia.
Qed.

Lemma exec_all_window_connected V cs : forall w,
  isConnectedToRobot (config w) = true ->
  existsb is_reset cs = false ->
  no_overflow_all V cs w = true ->
  isConnectedToRobot (config (exec_all V cs w)) = true /\
  m_recvRobotPacketsSinceConnect (self (exec_all V cs w))
    = m_recvRobotPacketsSinceConnect (self w) + occurrences (is_read Robot) cs /\
  m_sentRobotPacketsSinceConnect (self (exec_all V cs w))
    = m_sentRobotPacketsSinceConnect (self w)
      + occurrences (is_generate Robot) cs.
Proof.
  induction cs as [| c cs IH]; intros w Hconn Hr Hno.
  - unfold occurrences. cbn. repeat split; [exact Hconn | lia | lia].
  - cbn [existsb] in Hr. apply orb_false_iff in Hr as [Hc Hcs].
    cbn [no_overflow_all] in Hno. apply andb_true_iff in Hno as [Hn Hns].
    destruct (exec_window_connected V c w Hconn Hc Hn) as [Hconn' Hm].
    destruct (IH _ Hconn' Hcs Hns) as (Hfin & Hrecv & Hsent).
    rewrite exec_all_cons, !occurrences_cons.
    pose proof (Hm RecvRobotSinceConnect eq_refl) as H1.
    pose proof (Hm SentRobotSinceConnect eq_refl) as H2.
    rewrite bumps_window_recv in H1. rewrite bumps_window_sent in H2.
    cbn [member] in H1, H2.
    repeat split; [exact Hfin | lia | lia].
Qed.

(** X7: while the robot is marked connected and nobody calls
    [resetLossCounter], the window counts traffic: over any sequence of
    calls [recvRobotPacketsSinceConnect] advances by the number of
    [readRobotPacket] calls, accepted or not, [sentRobotPacketsSinceConnect]
    by the number of [generateRobotPacket] calls, and the robot is still
    marked connected at the end. *)
Theorem window_counts_while_connected V cs w :
  isConnectedToRobot (config w) = true ->
  existsb is_reset cs = false ->
  no_overflow_all V cs w = true ->
  recvRobotPacketsSinceConnect (self (exec_all V cs w))
    = recvRobotPacketsSinceConnect (self w) + occurrences (is_read Robot) cs /\
  sentRobotPacketsSinceConnect (self (exec_all V cs w))
    = sentRobotPacketsSinceConnect (self w)
      + occurrences (is_generate Robot) cs /\
  isConnectedToRobot (config (exec_all V cs w)) = true.
Proof.
  intros Hconn Hr Hno.
  destruct (exec_all_window_connected V cs w Hconn Hr Hno)
    as (Hfin & Hrecv & Hsent).
  unfold recvRobotPacketsSinceConnect, sentRobotPacketsSinceConnect.
  repeat split; assumption.
Qed.

Lemma window_counts_while_connected_witness :
  isConnectedToRobot (config connected_two_sent) = true /\
  existsb is_reset echo_session = false /\
  no_overflow_all zero_header echo_session connected_two_sent = true /\
  recvRobotPacketsSinceConnect
    (self (exec_all zero_header echo_session connected_two_sent))
    = recvRobotPacketsSinceConnect (self connected_two_sent) + 3 /\
  sentRobotPacketsSinceConnect
    (self (exec_all zero_header echo_session connected_two_sent))
    = sentRobotPacketsSinceConnect (self connected_two_sent) + 3 /\
  isConnectedToRobot
    (config (exec_all zero_header echo_session connected_two_sent)) = true.
Proof.
  split; [reflexivity | split; [reflexivity | split; [reflexivity |]]].
  apply (window_counts_while_connected zero_header echo_session
           connected_two_sent); reflexivity.
Defined.

Lemma reconnect_opens_window V data w :
  isConnectedToRobot (config w) = false ->
  interpretRobotPacket V data = true ->
  let w' := exec V (ReadRobotPacket data) w in
  isConnectedToRobot (config w') = true /\
  m_recvRobotPacketsSinceConnect (self w') = 0 /\
  m_sentRobotPacketsSinceConnect (self w') = 0.
Proof.
  intros Hdisc Hok. destruct w as [[a b c d e f g h] cfg].
  cbn [config] in Hdisc. step_through. rewrite Hok. step_through.
  rewrite Hdisc. step_through. repeat split.
Qed.

(** X8: after the packet that reconnects the robot (accepted while the
    robot was marked disconnected) the window holds exactly the traffic
    since: after any further calls without [resetLossCounter],
    [recvRobotPacketsSinceConnect] is the number of [readRobotPacket] calls
    after the reconnecting one and [sentRobotPacketsSinceConnect] the number
    of [generateRobotPacket] calls after it, whatever the counters held
    before. *)
Theorem window_restarts_on_reconnect V data cs w :
  isConnectedToRobot (config w) = false ->
  interpretRobotPacket V data = true ->
  existsb is_reset cs = false ->
  no_overflow_all V (ReadRobotPacket data :: cs) w = true ->
  let w' := exec_all V (ReadRobotPacket data :: cs) w in
  recvRobotPacketsSinceConnect (self w') = occurrences (is_read Robot) cs /\
  sentRobotPacketsSinceConnect (self w') = occurrences (is_generate Robot) cs.
Proof.
  intros Hdisc Hok Hr Hno w'. unfold w'. rewrite exec_all_cons.
  cbn [no_overflow_all] in Hno. apply andb_true_iff in Hno as [_ Hns].
  destruct (reconnect_opens_window V data w Hdisc Hok) as (Hconn & H0r & H0s).
  destruct (exec_all_window_connected V cs _ Hconn Hr Hns)
    as (_ & Hrecv & Hsent).
  unfold recvRobotPacketsSinceConnect, sentRobotPacketsSinceConnect.
  rewrite Hrecv, Hsent, H0r, H0s. split; reflexivity.
Qed.

Lemma window_restarts_on_reconnect_witness :
  isConnectedToRobot (config two_sent) = false /\
  interpretRobotPacket zero_header [x00; x07] = true /\
  existsb is_reset echo_session = false /\
  no_overflow_all zero_header (ReadRobotPacket [x00; x07] :: echo_session)
    two_sent = true /\
  recvRobotPacketsSinceConnect
    (self (exec_all zero_header (ReadRobotPacket [x00; x07] :: echo_session)
             two_sent)) = 3 /\
  sentRobotPacketsSinceConnect
    (self (exec_all zero_header (ReadRobotPacket [x00; x07] :: echo_session)
             two_sent)) = 3.
Proof.
  split; [reflexivity | split; [reflexivity | split; [reflexivity |
    split; [reflexivity |]]]].
  apply (window_restarts_on_reconnect zero_header [x00; x07] echo_session
           two_sent); reflexivity.
Defined.

Lemma exec_window_is_session V c w :
  is_reset c = false ->
  accepted_read V Robot c = false ->
  window_is_session (self w) ->
  window_is_session (self (exec V c w)).
Proof.
  intros Hr Hacc [H1 H2]. destruct w as [[a b c0 d e f g h] cfg].
  unfold window_is_session in *. read_fields. subst g h.
  destruct c; try discriminate Hr; cbn [accepted_read] in Hacc;
    step_through; try rewrite Hacc; decide_all_decoders; step_through;
    read_fields; split; reflexivity.
Qed.

(** X9: as long as no robot packet is accepted and nobody calls
    [resetLossCounter], a new object's window is its session:
    [recvRobotPacketsSinceConnect] equals [receivedRobotPackets] and
    [sentRobotPacketsSinceConnect] equals [sentRobotPackets] after any
    sequence of calls.  With the decoder inherited from [Protocol] no robot
    packet is ever accepted. *)
Theorem window_is_session_until_accept V cs cfg :
  existsb is_reset cs = false ->
  existsb (accepted_read V Robot) cs = false ->
  let p := self (exec_all V cs (mkWorld Protocol_ctor cfg)) in
  recvRobotPacketsSinceConnect p = receivedRobotPackets p /\
  sentRobotPacketsSinceConnect p = sentRobotPackets p.
Proof.
  intros Hr Hacc p.
  enough (H : forall w, window_is_session (self w) ->
                        window_is_session (self (exec_all V cs w)))
    by (apply (H (mkWorld Protocol_ctor cfg)); split; reflexivity).
  clear p. induction cs as [| c cs IH]; intros w Hw.
  - exact Hw.
  - cbn [existsb] in Hr, Hacc.
    apply orb_false_iff in Hr as [Hc Hcs].
    apply orb_false_iff in Hacc as [Ha Has].
    rewrite exec_all_cons. apply (IH Hcs Has).
    now apply exec_window_is_session.
Qed.

Lemma window_is_session_until_accept_witness :
  existsb is_reset echo_session = false /\
  existsb (accepted_read Protocol_base Robot) echo_session = false /\
  recvRobotPacketsSinceConnect
    (self (exec_all Protocol_base echo_session fresh))
    = receivedRobotPackets (self (exec_all Protocol_base echo_session fresh)) /\
  sentRobotPacketsSinceConnect
    (self (exec_all Protocol_base echo_session fresh))
    = sentRobotPackets (self (exec_all Protocol_base echo_session fresh)).
Proof.
  split; [reflexivity | split; [reflexivity |]].
  apply (window_is_session_until_accept Protocol_base echo_session all_failing);
    reflexivity.
Defined.

(** ** The radio under [FRC_2015] *)



